(** * Gate controller firmware (main.py): command state machine and
      RSSI-driven blink scheduler.

    A shallow embedding of the MicroPython program: the module globals
    become one record that every function takes and returns, the BLE
    interrupt handler becomes a function from an event and the globals to
    the new globals and the notifications it sent, and one pass of the
    main loop becomes a function of the tick counter it read. *)

From stdpp Require Import base numbers list sorting strings pretty gmap.
From Stdlib Require Import ZArith Lia Ascii String.

Local Open Scope Z_scope.

(** ** The signal-to-rate mapper *)

Module Mapper.

(** The dict literal [rssi_map], in the order it is written. *)
Definition rssi_map : list (Z * Z) :=
  [ (-30, 25); (-35, 50); (-40, 75); (-45, 100); (-50, 150);
    (-60, 300); (-70, 600); (-80, 1000); (-90, 1500) ].

(** [d.keys()] *)
Definition keys (d : list (Z * Z)) : list Z := map fst d.

(** [d[k]]; a missing key (Python's KeyError) reads as [None]. *)
Fixpoint getitem (d : list (Z * Z)) (k : Z) : option Z :=
  match d with
  | [] => None
  | (k', v) :: d' => if Z.eqb k k' then Some v else getitem d' k
  end.

(** The order of [sorted(..., reverse=True)] on integers. *)
Definition descending (a b : Z) : Prop := b ≤ a.

#[global] Instance descending_dec : RelDecision descending.
Proof. intros a b. unfold descending. apply _. Defined.

(** [sorted(ks, reverse=True)] *)
Definition sorted_reverse (ks : list Z) : list Z :=
  merge_sort descending ks.

(** The [for threshold in ...] loop up to its [return]: the threshold at
    which the loop returns, or [None] when it runs to its end. *)
Fixpoint scan (thresholds : list Z) (rssi : Z) : option Z :=
  match thresholds with
  | [] => None
  | threshold :: rest =>
      if Z.geb rssi threshold then Some threshold else scan rest rssi
  end.

(** [rssi_map[threshold]] is read only at a key the loop took from
    [rssi_map.keys()], so the lookup cannot miss ([getitem_keys] below);
    the [default] is never delivered. *)
Definition rssi_to_blink_interval (rssi : Z) : Z :=
  match scan (sorted_reverse (keys rssi_map)) rssi with
  | Some threshold => default 0 (getitem rssi_map threshold)
  | None => 1500
  end.

End Mapper.

Export Mapper.

(** ** Text and bytes

    A [bytes] object and a [str] are both held as a Rocq [string], a sequence
    of 8-bit characters: MicroPython keeps a [str] as its UTF-8 bytes, and
    [strip], [lower] and [int] there look at ASCII characters only. *)

Module Text.

Definition code (c : ascii) : Z := Z.of_N (N_of_ascii c).

(** ASCII white space: tab, line feed, vertical tab, form feed, carriage
    return and space. *)
Definition isspace (c : ascii) : bool :=
  let n := code c in ((9 <=? n) && (n <=? 13)) || (n =? 32).

Definition isdigit (c : ascii) : bool :=
  let n := code c in (48 <=? n) && (n <=? 57).

Fixpoint lstrip (s : string) : string :=
  match s with
  | EmptyString => EmptyString
  | String c s' => if isspace c then lstrip s' else s
  end.

Fixpoint rstrip (s : string) : string :=
  match s with
  | EmptyString => EmptyString
  | String c s' =>
      match rstrip s' with
      | EmptyString => if isspace c then EmptyString else String c EmptyString
      | r => String c r
      end
  end.

(** [s.strip()] *)
Definition strip (s : string) : string := rstrip (lstrip s).

Definition lower_char (c : ascii) : ascii :=
  let n := code c in
  if (65 <=? n) && (n <=? 90) then ascii_of_N (Z.to_N (n + 32)) else c.

(** [s.lower()] *)
Fixpoint lower (s : string) : string :=
  match s with
  | EmptyString => EmptyString
  | String c s' => String (lower_char c) (lower s')
  end.

(** [s.startswith(p)] *)
Fixpoint startswith (s p : string) {struct p} : bool :=
  match p with
  | EmptyString => true
  | String b p' =>
      match s with
      | EmptyString => false
      | String a s' => Ascii.eqb a b && startswith s' p'
      end
  end.

(** [s.split(sep)] for a separator of one character. *)
Fixpoint split (sep : ascii) (s : string) : list string :=
  match s with
  | EmptyString => [EmptyString]
  | String c s' =>
      if Ascii.eqb c sep then EmptyString :: split sep s'
      else match split sep s' with
           | w :: ws => String c w :: ws
           | [] => [String c EmptyString]
           end
  end.

(** [sep.join(parts)] *)
Fixpoint join (sep : string) (parts : list string) : string :=
  match parts with
  | [] => EmptyString
  | [w] => w
  | w :: ws => w +:+ sep +:+ join sep ws
  end.

(** The check that MicroPython's [bytes.decode] makes: a byte below 0x80
    stands alone, a lead byte 0xC0..0xF7 announces one, two or three
    continuation bytes, each of the form 10xxxxxx, and every other byte is
    refused. [need] counts the continuation bytes still due. The check is
    structural only: overlong forms, surrogates and code points above
    U+10FFFF pass it. *)
Fixpoint utf8_check (need : nat) (s : string) : bool :=
  match s with
  | EmptyString => match need with O => true | S _ => false end
  | String c s' =>
      let n := code c in
      match need with
      | S k => if (128 <=? n) && (n <? 192) then utf8_check k s' else false
      | O =>
          if n <? 128 then utf8_check 0 s'
          else if n <? 192 then false
          else if n <? 224 then utf8_check 1 s'
          else if n <? 240 then utf8_check 2 s'
          else if n <? 248 then utf8_check 3 s'
          else false
      end
  end.

(** [value.decode('utf-8')]: the same bytes as a [str] when the check
    passes; [None] is the UnicodeError. *)
Definition decode (value : string) : option string :=
  if utf8_check 0 value then Some value else None.

(** The digit loop of MicroPython's [int]: a decimal digit enters the
    value, every underscore is skipped, and the loop stops at the first
    other character. Returns the value and the text left unread. *)
Fixpoint digits (acc : Z) (s : string) : Z * string :=
  match s with
  | EmptyString => (acc, EmptyString)
  | String c s' =>
      if isdigit c then digits (10 * acc + (code c - 48)) s'
      else if Ascii.eqb c "_" then digits acc s'
      else (acc, s)
  end.

(** [int]'s work after the sign: the digit loop must have read at least
    one character, and only white space may follow it. *)
Definition int_body (neg : bool) (body : string) : option Z :=
  let '(value, rest) := digits 0 body in
  if (String.length rest =? String.length body)%nat then None
  else
    match lstrip rest with
    | EmptyString => Some (if neg then - value else value)
    | _ => None
    end.

(** [int(text)] as MicroPython parses it in base 10: leading white space,
    an optional sign, the digit loop, trailing white space; [None] is the
    ValueError. *)
Definition int (text : string) : option Z :=
  match lstrip text with
  | String c s' =>
      if Ascii.eqb c "-" then int_body true s'
      else if Ascii.eqb c "+" then int_body false s'
      else int_body false (String c s')
  | EmptyString => int_body false EmptyString
  end.

(** [str(n)], as an f-string writes an integer. *)
Definition str (n : Z) : string := pretty n.

Definition hexdigit (n : Z) : ascii :=
  if n <? 10 then ascii_of_N (Z.to_N (48 + n))
  else ascii_of_N (Z.to_N (87 + n)).

(** ['%02x' % b] for a byte [b]. *)
Definition hex02 (b : ascii) : string :=
  let n := code b in
  String (hexdigit (n / 16)) (String (hexdigit (n mod 16)) EmptyString).

End Text.

(** ** Module globals and output pins *)

(** One entry of [connected_devices]: the dict with keys ['addr'] and
    ['name']. *)
Record device_info := DeviceInfo { addr : string; name : string }.

(** The module's global variables. A [Pin] is held as the level it
    drives. [led_handle] is the value handle that
    [gatts_register_services] returned; [last_blink_time_ms] and
    [current_blink_interval_ms] are the main loop's two variables. *)
Record globals := Globals {
  led : bool;
  relay_pin : bool;
  buzzer_pin : bool;
  ble_active : bool;
  connected_devices : gmap Z device_info;
  rssi_blink_active : bool;
  current_rssi : Z;
  led_handle : Z;
  last_blink_time_ms : Z;
  current_blink_interval_ms : Z
}.

(** A call [ble.gatts_notify(conn_handle, value_handle, data)]. *)
Record notification := Notify {
  to_conn : Z;
  on_value : Z;
  payload : string
}.

(** What the BLE stack hands to [ble_handler]: event 1 (a central
    connected), event 2 (it disconnected) and event 3 (it wrote a
    characteristic). For event 3, [written] is the value that
    [ble.gatts_read(led_handle)] returns when the handler runs. *)
Inductive irq :=
| IRQ_CENTRAL_CONNECT (conn_handle addr_type : Z) (addr_bytes : string)
| IRQ_CENTRAL_DISCONNECT (conn_handle addr_type : Z) (addr_bytes : string)
| IRQ_GATTS_WRITE (conn_handle value_handle : Z) (written : string).

Module Pins.

Definition set_led (v : bool) (g : globals) : globals :=
  Globals v (relay_pin g) (buzzer_pin g) (ble_active g)
          (connected_devices g) (rssi_blink_active g) (current_rssi g)
          (led_handle g) (last_blink_time_ms g) (current_blink_interval_ms g).

Definition led_on : globals → globals := set_led true.
Definition led_off : globals → globals := set_led false.
Definition led_toggle (g : globals) : globals := set_led (negb (led g)) g.
Definition led_value (g : globals) : bool := led g.

Definition set_relay (v : bool) (g : globals) : globals :=
  Globals (led g) v (buzzer_pin g) (ble_active g)
          (connected_devices g) (rssi_blink_active g) (current_rssi g)
          (led_handle g) (last_blink_time_ms g) (current_blink_interval_ms g).

Definition relay_on : globals → globals := set_relay true.
Definition relay_off : globals → globals := set_relay false.

Definition buzzer_off (g : globals) : globals :=
  Globals (led g) (relay_pin g) false (ble_active g)
          (connected_devices g) (rssi_blink_active g) (current_rssi g)
          (led_handle g) (last_blink_time_ms g) (current_blink_interval_ms g).

(** [ble.active(v)] *)
Definition set_ble_active (v : bool) (g : globals) : globals :=
  Globals (led g) (relay_pin g) (buzzer_pin g) v
          (connected_devices g) (rssi_blink_active g) (current_rssi g)
          (led_handle g) (last_blink_time_ms g) (current_blink_interval_ms g).

End Pins.

Module Vars.

Definition set_connected_devices (d : gmap Z device_info) (g : globals)
    : globals :=
  Globals (led g) (relay_pin g) (buzzer_pin g) (ble_active g)
          d (rssi_blink_active g) (current_rssi g)
          (led_handle g) (last_blink_time_ms g) (current_blink_interval_ms g).

Definition set_rssi_blink_active (v : bool) (g : globals) : globals :=
  Globals (led g) (relay_pin g) (buzzer_pin g) (ble_active g)
          (connected_devices g) v (current_rssi g)
          (led_handle g) (last_blink_time_ms g) (current_blink_interval_ms g).

Definition set_current_rssi (v : Z) (g : globals) : globals :=
  Globals (led g) (relay_pin g) (buzzer_pin g) (ble_active g)
          (connected_devices g) (rssi_blink_active g) v
          (led_handle g) (last_blink_time_ms g) (current_blink_interval_ms g).

Definition set_last_blink_time_ms (v : Z) (g : globals) : globals :=
  Globals (led g) (relay_pin g) (buzzer_pin g) (ble_active g)
          (connected_devices g) (rssi_blink_active g) (current_rssi g)
          (led_handle g) v (current_blink_interval_ms g).

Definition set_current_blink_interval_ms (v : Z) (g : globals) : globals :=
  Globals (led g) (relay_pin g) (buzzer_pin g) (ble_active g)
          (connected_devices g) (rssi_blink_active g) (current_rssi g)
          (led_handle g) (last_blink_time_ms g) v.

End Vars.

Import Pins Vars.

(** The globals once the module's top level has run and the main loop is
    about to start: the LED was switched off, the registry is empty,
    monitoring is off and the reading is -60. The program never sets the
    first level of the relay and buzzer pins, and the characteristic's handle
    is the stack's choice; they are taken as given. *)
Definition initial (handle : Z) (relay0 buzzer0 : bool) : globals :=
  Globals false relay0 buzzer0 true ∅ false (-60) handle 0 400.

(** ** The program's functions *)

Definition update_rssi (new_rssi : Z) (g : globals) : globals :=
  set_current_rssi new_rssi g.

Definition start_rssi_monitoring (g : globals) : globals :=
  set_rssi_blink_active true g.

Definition stop_rssi_monitoring (g : globals) : globals :=
  led_off (set_rssi_blink_active false g).

(** Returns the new globals and the function's return value. *)
Definition update_rssi_blink (g : globals) : globals * Z :=
  if negb (rssi_blink_active g) then (g, 400)
  else
    let interval_ms := rssi_to_blink_interval (current_rssi g) in
    (led_toggle g, interval_ms).

Definition get_device_addr_string (addr_bytes : string) : string :=
  Text.join ":" (map Text.hex02 (list_ascii_of_string addr_bytes)).

(** The body of the [for i in range(5)] loop; [time.sleep] changes no
    variable. *)
Definition welcome_pulse (g : globals) : globals := led_off (led_on g).

Definition welcome_sequence (g : globals) : globals :=
  Nat.iter 5 welcome_pulse g.

(** [dict] truth value: a dict is true when it has an entry. *)
Definition truthy (d : gmap Z device_info) : bool :=
  negb (bool_decide (d = ∅)).

(** The chain of [if]/[elif] on [command] in the write branch: the new
    globals and [status]. *)
Definition interpret (command : string) (g : globals) : globals * string :=
  if bool_decide (command ∈ ["1"; "on"]) then
    (led_on (stop_rssi_monitoring g), "on")
  else if bool_decide (command ∈ ["0"; "off"]) then
    (led_off (stop_rssi_monitoring g), "off")
  else if bool_decide (command = "toggle") then
    let g' := led_toggle (stop_rssi_monitoring g) in
    (g', if led_value g' then "on" else "off")
  else if bool_decide (command = "unlock") then
    (relay_on g, "unlocked")
  else if bool_decide (command = "lock") then
    (relay_off g, "locked")
  else if bool_decide (command = "start_rssi") then
    (start_rssi_monitoring g, "rssi_started")
  else if bool_decide (command = "stop_rssi") then
    (stop_rssi_monitoring g, "rssi_stopped")
  else if Text.startswith command "rssi:" then
    match Text.split ":" command !! 1%nat ≫= Text.int with
    | Some rssi_value =>
        (update_rssi rssi_value g, "rssi_updated:" +:+ Text.str rssi_value)
    | None => (g, "rssi_error")
    end
  else (g, "unknown").

(** [value.decode('utf-8').strip().lower()] *)
Definition command_text (value : string) : option string :=
  text ← Text.decode value; Some (Text.lower (Text.strip text)).

(** [ble_handler(event, data)]: the new globals and the notifications sent,
    in order. A failing [gatts_notify] is swallowed by its [try], so the
    list records the calls made. *)
Definition ble_handler (event : irq) (g : globals)
    : globals * list notification :=
  match event with
  | IRQ_CENTRAL_CONNECT conn_handle _ addr_bytes =>
      let addr_str := get_device_addr_string addr_bytes in
      let g1 :=
        set_connected_devices
          (<[conn_handle := DeviceInfo addr_str "Phone"]> (connected_devices g))
          g in
      let g2 := welcome_sequence g1 in
      (g2, [Notify conn_handle (led_handle g2) "connected"])
  | IRQ_CENTRAL_DISCONNECT conn_handle _ _ =>
      match connected_devices g !! conn_handle with
      | Some device_info =>
          let g1 := stop_rssi_monitoring g in
          (set_connected_devices (delete conn_handle (connected_devices g1)) g1,
           [])
      | None => (g, [])
      end
  | IRQ_GATTS_WRITE conn_handle value_handle written =>
      match connected_devices g !! conn_handle with
      | None => (g, [])
      | Some device_info =>
          if Z.eqb value_handle (led_handle g) then
            match command_text written with
            | None =>
                (* UnicodeError leaves the handler; nothing was assigned *)
                (g, [])
            | Some command =>
                let '(g', status) := interpret command g in
                (g', [Notify conn_handle (led_handle g') status])
            end
          else (g, [])
      end
  end.

(** [time.ticks_diff(a, b)]: the signed distance from [b] to [a] on the
    ring of tick values. *)
Definition TICKS_PERIOD : Z := 2 ^ 30.

Definition ticks_diff (a b : Z) : Z :=
  (a - b + TICKS_PERIOD / 2) mod TICKS_PERIOD - TICKS_PERIOD / 2.

(** One pass of the [while True] body; [current_time_ms] is what
    [time.ticks_ms()] returned. The status print and the closing
    [time.sleep_ms(20)] change no variable. *)
Definition loop_iteration (current_time_ms : Z) (g : globals) : globals :=
  if rssi_blink_active g && truthy (connected_devices g) then
    let g1 :=
      set_current_blink_interval_ms
        (rssi_to_blink_interval (current_rssi g)) g in
    if Z.geb (ticks_diff current_time_ms (last_blink_time_ms g1))
             (current_blink_interval_ms g1) then
      let g2 := fst (update_rssi_blink g1) in
      set_last_blink_time_ms current_time_ms g2
    else g1
  else g.

(** The [except KeyboardInterrupt] block. *)
Definition shutdown (g : globals) : globals :=
  set_ble_active false
    (buzzer_off (relay_off (led_off (stop_rssi_monitoring g)))).

(** The handler run over a sequence of events, oldest first. *)
Definition run (events : list irq) (g : globals) : globals :=
  foldl (λ g e, fst (ble_handler e g)) g events.

(** ** Advertising *)

(** [bytes([n1, n2, ...])]: each item must be in [range(256)]; [None] is
    the ValueError. *)
Fixpoint bytes_of (items : list Z) : option string :=
  match items with
  | [] => Some EmptyString
  | n :: rest =>
      if (0 <=? n) && (n <? 256) then
        String (ascii_of_N (Z.to_N n)) <$> bytes_of rest
      else None
  end.

(** [len(b)] *)
Definition len (b : string) : Z := Z.of_nat (String.length b).

(** The [adv_data] that [start_advertising] builds from the device name and
    from [service_bytes = bytes(SERVICE_UUID)]: the flags, the complete
    local name and the 128-bit service UUID, each behind its length and
    type bytes. *)
Definition adv_data (name service_bytes : string) : option string :=
  flags ← bytes_of [2; 1; 6];
  name_head ← bytes_of [len name + 1; 9];
  service_head ← bytes_of [len service_bytes + 1; 7];
  Some (flags +:+ (name_head +:+ name) +:+ (service_head +:+ service_bytes)).

(** [start_advertising()]: the arguments of its call
    [ble.gap_advertise(100, adv_data)]; the name is [b'Gate']. The
    [ble.config] call is wrapped in a [try] and assigns no variable. *)
Definition start_advertising (service_bytes : string) : option (Z * string) :=
  data ← adv_data "Gate" service_bytes; Some (100, data).

(** ** The program as a whole *)

(** The single thread of control: a call of the handler, or a pass of the
    main loop that read [current_time_ms] from the tick counter. The handler
    is taken to run between passes. *)
Inductive action :=
| Event (event : irq)
| Pass (current_time_ms : Z).

Definition step (a : action) (g : globals) : globals :=
  match a with
  | Event event => (ble_handler event g).1
  | Pass current_time_ms => loop_iteration current_time_ms g
  end.

Definition execute (actions : list action) (g : globals) : globals :=
  foldl (λ g a, step a g) g actions.

(** ** Vocabulary of the properties *)

(** The connection an event belongs to. *)
Definition event_conn (event : irq) : Z :=
  match event with
  | IRQ_CENTRAL_CONNECT conn_handle _ _
  | IRQ_CENTRAL_DISCONNECT conn_handle _ _
  | IRQ_GATTS_WRITE conn_handle _ _ => conn_handle
  end.

(** Advertising data read back as a sequence of structures (type, data):
    a length byte counts the type byte and the data after it. [fuel] bounds
    the number of structures. *)
Fixpoint parse_ad (fuel : nat) (data : string) : option (list (Z * string)) :=
  match fuel, data with
  | _, EmptyString => Some []
  | O, _ => None
  | S fuel', String l (String t rest) =>
      let n := Z.to_nat (Text.code l - 1) in
      if (Text.code l =? 0) || (String.length rest <? n)%nat then None
      else
        cons (Text.code t, String.substring 0 n rest)
          <$> parse_ad fuel' (String.substring n (String.length rest - n) rest)
  | S _, String _ EmptyString => None
  end.

(** The value of a lower-case hexadecimal digit, and the byte that two of
    them write. *)
Definition hexval (c : ascii) : Z :=
  if Text.isdigit c then Text.code c - 48 else Text.code c - 87.

Definition unhex02 (s : string) : ascii :=
  match s with
  | String c1 (String c2 _) => ascii_of_N (Z.to_N (16 * hexval c1 + hexval c2))
  | _ => ascii_of_N 0
  end.

(** The commands that set the LED themselves or end monitoring. *)
Definition led_commands : list string :=
  ["1"; "on"; "0"; "off"; "toggle"; "stop_rssi"].

(** The scheduler is Active: monitoring is enabled and a connection is
    registered. *)
Definition Active (g : globals) : Prop :=
  rssi_blink_active g = true ∧ connected_devices g ≠ ∅.

(** A tick finds the blink due: Active, and the time elapsed since the last
    blink has reached the period of the current reading. *)
Definition due (current_time_ms : Z) (g : globals) : Prop :=
  Active g ∧
  rssi_to_blink_interval (current_rssi g)
    ≤ ticks_diff current_time_ms (last_blink_time_ms g).

(** With an empty registry monitoring is off. *)
Definition registry_invariant (g : globals) : Prop :=
  connected_devices g = ∅ → rssi_blink_active g = false.

(** The character [c] occurs in [s]. *)
Fixpoint occurs (c : ascii) (s : string) : bool :=
  match s with
  | EmptyString => false
  | String c' s' => Ascii.eqb c' c || occurs c s'
  end.

(** The part of an [rssi:] command after its colon, up to the next colon:
    what [command.split(':')[1]] selects from the payload. *)
Definition second_field (payload : string) : string :=
  match Text.split ":" payload with
  | field :: _ => field
  | [] => EmptyString
  end.

(** ** Sample runs *)

(** A phone connects on handle 1 to a device whose characteristic has
    handle 9 and whose relay and buzzer start low. *)
Definition sample_connected : globals :=
  run [IRQ_CENTRAL_CONNECT 1 0 "abcdef"] (initial 9 false false).

(** ... then switches monitoring on. *)
Definition sample_monitoring : globals :=
  run [IRQ_GATTS_WRITE 1 9 "start_rssi"] sample_connected.

(** ... or switches the LED on. *)
Definition sample_lit : globals :=
  run [IRQ_GATTS_WRITE 1 9 "on"] sample_connected.

(** ... and has blinked until the tick counter is about to wrap. *)
Definition sample_late : globals :=
  execute [Pass 536870000; Pass 1073740000] sample_monitoring.

(** * Properties *)

(** ** The mapper *)

Section MapperFacts.

#[local] Instance descending_trans : Transitive descending.
Proof. unfold descending. intros a b c ? ?. lia. Qed.

#[local] Instance descending_total : Total descending.
Proof. unfold descending. intros a b. lia. Qed.

Lemma sorted_reverse_sorted ks : StronglySorted descending (sorted_reverse ks).
Proof. apply StronglySorted_merge_sort; apply _. Qed.

Lemma sorted_reverse_elem ks k : k ∈ sorted_reverse ks ↔ k ∈ ks.
Proof. unfold sorted_reverse. by rewrite merge_sort_Permutation. Qed.

Lemma getitem_elem d k v : getitem d k = Some v → (k, v) ∈ d.
Proof.
  induction d as [|[k' v'] d IH]; cbn; [done|].
  destruct (Z.eqb_spec k k') as [->|Hne].
  - intros [= ->]. left.
  - intros H. right. auto.
Qed.

(** No KeyError: every key of a dict reads back. *)
Lemma getitem_keys d k : k ∈ keys d → is_Some (getitem d k).
Proof.
  induction d as [|[k' v'] d IH]; cbn.
  - intros H. inversion H.
  - intros H. destruct (Z.eqb_spec k k') as [->|Hne]; [eauto|].
    apply IH. inversion H; subst; [done|assumption].
Qed.

Lemma keys_elem d k v : (k, v) ∈ d → k ∈ keys d.
Proof. intros H. unfold keys. apply list_elem_of_fmap. by exists (k, v). Qed.

(** The loop returns at a threshold the reading reaches. *)
Lemma scan_Some ks r t : scan ks r = Some t → t ∈ ks ∧ t ≤ r.
Proof.
  induction ks as [|k ks IH]; cbn; [done|].
  destruct (Z.geb_spec r k) as [Hge|Hlt].
  - intros [= ->]. split; [left | lia].
  - intros H. destruct (IH H). split; [by right | done].
Qed.

(** On thresholds in descending order it returns at the greatest such. *)
Lemma scan_greatest ks r t :
  StronglySorted descending ks → scan ks r = Some t →
  ∀ t', t' ∈ ks → t' ≤ r → t' ≤ t.
Proof.
  induction 1 as [|k ks Hs IH Hall]; cbn; [done|].
  destruct (Z.geb_spec r k) as [Hge|Hlt].
  - intros [= <-] t' Hin _. inversion Hin; subst; [lia|].
    rewrite Forall_forall in Hall. apply Hall. assumption.
  - intros H t' Hin Hle. inversion Hin; subst; [lia|]. by apply IH.
Qed.

(** The loop runs to its end only below every threshold. *)
Lemma scan_None ks r : scan ks r = None → ∀ t, t ∈ ks → r < t.
Proof.
  induction ks as [|k ks IH]; cbn.
  - intros _ t H. inversion H.
  - destruct (Z.geb_spec r k) as [Hge|Hlt]; [done|].
    intros H t Hin. inversion Hin; subst; [lia | by apply IH].
Qed.

Lemma thresholds_sorted :
  sorted_reverse (keys rssi_map)
  = [-30; -35; -40; -45; -50; -60; -70; -80; -90].
Proof. vm_compute. reflexivity. Qed.

(** The function as the cascade of comparisons the loop performs. *)
Lemma rssi_to_blink_interval_cascade r :
  rssi_to_blink_interval r =
    if r >=? -30 then 25 else if r >=? -35 then 50
    else if r >=? -40 then 75 else if r >=? -45 then 100
    else if r >=? -50 then 150 else if r >=? -60 then 300
    else if r >=? -70 then 600 else if r >=? -80 then 1000
    else if r >=? -90 then 1500 else 1500.
Proof.
  unfold rssi_to_blink_interval. rewrite thresholds_sorted. cbn [scan].
  repeat (destruct (r >=? _); [reflexivity|]). reflexivity.
Qed.

End MapperFacts.

(** Splits on the first comparison [a >=? b] of the goal. *)
Ltac split_geb :=
  match goal with
  | |- context [?a >=? ?b] => destruct (Z.geb_spec a b)
  end.

(** C1. For every reading [r ≥ -90] the mapper returns the period that the
    table pairs with the greatest threshold [t] with [t ≤ r]. *)
Theorem mapper_greatest_threshold (r : Z) :
  -90 ≤ r →
  ∃ t, (t, rssi_to_blink_interval r) ∈ rssi_map ∧ t ≤ r ∧
       ∀ t' p', (t', p') ∈ rssi_map → t' ≤ r → t' ≤ t.
Proof.
  intros Hr. unfold rssi_to_blink_interval.
  destruct (scan (sorted_reverse (keys rssi_map)) r) as [t|] eqn:Hscan.
  - destruct (scan_Some _ _ _ Hscan) as [Hin Hle].
    rewrite sorted_reverse_elem in Hin.
    destruct (getitem_keys _ _ Hin) as [p Hp]. rewrite Hp. cbn.
    exists t. split; [by apply getitem_elem|]. split; [done|].
    intros t' p' Hin' Hle'.
    eapply scan_greatest; [apply sorted_reverse_sorted | exact Hscan | | done].
    apply sorted_reverse_elem. by eapply keys_elem.
  - exfalso. pose proof (scan_None _ _ Hscan (-90)) as H.
    assert (-90 ∈ sorted_reverse (keys rssi_map)) as Hin.
    { apply sorted_reverse_elem. cbn. set_solver. }
    specialize (H Hin). lia.
Qed.

Lemma mapper_greatest_threshold_witness :
  ∃ t, (t, rssi_to_blink_interval (-72)) ∈ rssi_map ∧ t ≤ -72 ∧
       ∀ t' p', (t', p') ∈ rssi_map → t' ≤ -72 → t' ≤ t.
Proof. apply (mapper_greatest_threshold (-72)). lia. Defined.

(** C2. The mapper is positive everywhere, does not increase as the
    reading grows, and is 1500 below -90. *)
Theorem mapper_positive_antitone_floor :
  (∀ r, 0 < rssi_to_blink_interval r) ∧
  (∀ r1 r2, r1 ≤ r2 → rssi_to_blink_interval r2 ≤ rssi_to_blink_interval r1) ∧
  (∀ r, r < -90 → rssi_to_blink_interval r = 1500).
Proof.
  split; [|split].
  - intros r. rewrite rssi_to_blink_interval_cascade.
    repeat split_geb; lia.
  - intros r1 r2 H. rewrite !rssi_to_blink_interval_cascade.
    repeat split_geb; lia.
  - intros r H. rewrite rssi_to_blink_interval_cascade.
    repeat split_geb; lia.
Qed.

Lemma mapper_positive_antitone_floor_witness :
  0 < rssi_to_blink_interval (-72) ∧
  rssi_to_blink_interval (-40) ≤ rssi_to_blink_interval (-72) ∧
  rssi_to_blink_interval (-95) = 1500.
Proof.
  destruct mapper_positive_antitone_floor as (Hpos & Hmono & Hfloor).
  split; [apply Hpos|]. split; [apply Hmono; lia | apply Hfloor; lia].
Defined.

Example mapper_at_minus_72 : rssi_to_blink_interval (-72) = 1000.
Proof. vm_compute. reflexivity. Qed.

(** ** The blink scheduler *)

Lemma truthy_spec (d : gmap Z device_info) : truthy d = true ↔ d ≠ ∅.
Proof.
  unfold truthy. case_bool_decide as H; cbn; split; done.
Qed.

Lemma Active_spec g :
  rssi_blink_active g && truthy (connected_devices g) = true ↔ Active g.
Proof.
  unfold Active. rewrite andb_true_iff, truthy_spec. reflexivity.
Qed.



(** Across the wrap of the tick counter, [ticks_diff] still gives the time
    that went by, up to half the counter's period. *)
Lemma ticks_diff_later now d :
  0 ≤ d < TICKS_PERIOD / 2 →
  ticks_diff ((now + d) mod TICKS_PERIOD) now = d.
Proof.
  unfold ticks_diff, TICKS_PERIOD. change (2 ^ 30) with 1073741824.
  change (1073741824 / 2) with 536870912. intros Hd.
  Z.div_mod_to_equations. lia.
Qed.




(** ** The interrupt handler *)

(** No command touches the registry, the handle of the characteristic or
    the main loop's variables. *)
Lemma interpret_frame command g :
  connected_devices (interpret command g).1 = connected_devices g ∧
  led_handle (interpret command g).1 = led_handle g ∧
  last_blink_time_ms (interpret command g).1 = last_blink_time_ms g.
Proof.
  unfold interpret. repeat case_match; cbn; done.
Qed.

(** C8. A write on a handle that is not registered sends nothing and
    changes nothing. *)
Theorem write_unknown_handle_ignored
    (g : globals) (conn_handle value_handle : Z) (written : string) :
  connected_devices g !! conn_handle = None →
  ble_handler (IRQ_GATTS_WRITE conn_handle value_handle written) g = (g, []).
Proof. intros H. cbn. rewrite H. reflexivity. Qed.

Lemma write_unknown_handle_ignored_witness :
  ble_handler (IRQ_GATTS_WRITE 2 9 "unlock") sample_monitoring
  = (sample_monitoring, []).
Proof.
  apply (write_unknown_handle_ignored sample_monitoring 2 9 "unlock").
  vm_compute. reflexivity.
Defined.

(** C9. Whatever the globals when the interrupt is taken, the shutdown
    block leaves the LED, the relay and the buzzer off and monitoring
    disabled. *)
Theorem shutdown_safe_state (g : globals) :
  led (shutdown g) = false ∧ relay_pin (shutdown g) = false ∧
  buzzer_pin (shutdown g) = false ∧ rssi_blink_active (shutdown g) = false.
Proof. repeat split. Qed.

Lemma welcome_sequence_led g : led (welcome_sequence g) = false.
Proof. reflexivity. Qed.

(** C10. A connect event ends with the LED off, whatever it was, and
    leaves monitoring, the relay and the last reading as they were. *)
Theorem connect_ends_led_off
    (g : globals) (conn_handle addr_type : Z) (addr_bytes : string) :
  let g' := (ble_handler (IRQ_CENTRAL_CONNECT conn_handle addr_type addr_bytes) g).1 in
  led g' = false ∧
  rssi_blink_active g' = rssi_blink_active g ∧
  relay_pin g' = relay_pin g ∧
  current_rssi g' = current_rssi g.
Proof. cbv zeta. repeat split. Qed.

Example connect_while_lit :
  led sample_lit = true ∧
  led (ble_handler (IRQ_CENTRAL_CONNECT 2 0 "uvwxyz") sample_lit).1 = false.
Proof. split; vm_compute; reflexivity. Qed.

(** The commands [unlock] and [lock] through the handler, on a registered
    handle. *)
Lemma write_unlock g h handle info :
  connected_devices g !! h = Some info → led_handle g = handle →
  (ble_handler (IRQ_GATTS_WRITE h handle "unlock") g).1 = relay_on g.
Proof. intros H <-. cbn. rewrite H, Z.eqb_refl. reflexivity. Qed.

Lemma write_lock g h handle info :
  connected_devices g !! h = Some info → led_handle g = handle →
  (ble_handler (IRQ_GATTS_WRITE h handle "lock") g).1 = relay_off g.
Proof. intros H <-. cbn. rewrite H, Z.eqb_refl. reflexivity. Qed.

Lemma disconnect_relay g h t a :
  relay_pin (ble_handler (IRQ_CENTRAL_DISCONNECT h t a) g).1 = relay_pin g.
Proof. cbn. destruct (connected_devices g !! h); reflexivity. Qed.

(** C7. A disconnect event leaves the relay as it was; after connect,
    unlock, lock, unlock and disconnect on one handle the relay is still
    engaged. *)
Theorem disconnect_keeps_relay :
  (∀ g conn_handle addr_type addr_bytes,
     relay_pin
       (ble_handler (IRQ_CENTRAL_DISCONNECT conn_handle addr_type addr_bytes) g).1
     = relay_pin g) ∧
  (∀ handle relay0 buzzer0 h1 addr_type addr_bytes,
     relay_pin
       (run [ IRQ_CENTRAL_CONNECT h1 addr_type addr_bytes;
              IRQ_GATTS_WRITE h1 handle "unlock";
              IRQ_GATTS_WRITE h1 handle "lock";
              IRQ_GATTS_WRITE h1 handle "unlock";
              IRQ_CENTRAL_DISCONNECT h1 addr_type addr_bytes ]
            (initial handle relay0 buzzer0))
     = true).
Proof.
  split; [intros; apply disconnect_relay|].
  intros handle relay0 buzzer0 h1 t a. unfold run. cbn [foldl].
  rewrite disconnect_relay.
  set (g1 := (ble_handler (IRQ_CENTRAL_CONNECT h1 t a) _).1).
  assert (connected_devices g1 !! h1
          = Some (DeviceInfo (get_device_addr_string a) "Phone")) as Hreg
    by apply lookup_insert_eq.
  rewrite (write_unlock g1 h1 handle _ Hreg eq_refl).
  rewrite (write_lock (relay_on g1) h1 handle _ Hreg eq_refl).
  rewrite (write_unlock (relay_off (relay_on g1)) h1 handle _ Hreg eq_refl).
  reflexivity.
Qed.

(** ** The registry and monitoring *)

Lemma ble_handler_invariant event g :
  registry_invariant g → registry_invariant (ble_handler event g).1.
Proof.
  unfold registry_invariant. intros Hinv.
  destruct event as [h t a | h t a | h vh w]; cbn.
  - intros Hempty. by apply insert_non_empty in Hempty.
  - destruct (connected_devices g !! h); [reflexivity | exact Hinv].
  - destruct (connected_devices g !! h) as [info|] eqn:Hreg; [|exact Hinv].
    assert (connected_devices g ≠ ∅) as Hne.
    { intros Hempty. rewrite Hempty, lookup_empty in Hreg. discriminate. }
    destruct (vh =? led_handle g); [|done].
    destruct (command_text w) as [command|]; [|done].
    pose proof (interpret_frame command g) as [Hframe _].
    destruct (interpret command g) as [g' status]. cbn in *.
    rewrite Hframe. done.
Qed.

Lemma run_invariant events g :
  registry_invariant g → registry_invariant (run events g).
Proof.
  revert g. induction events as [|e events IH]; intros g Hinv; [exact Hinv|].
  apply IH. by apply ble_handler_invariant.
Qed.

Lemma disconnect_registered g h t a info :
  connected_devices g !! h = Some info →
  (ble_handler (IRQ_CENTRAL_DISCONNECT h t a) g).1
  = set_connected_devices (delete h (connected_devices g))
      (stop_rssi_monitoring g).
Proof. intros H. cbn. rewrite H. reflexivity. Qed.

(** C4. In every state reached from the initial one by connect, disconnect
    and write events, an empty registry implies that monitoring is off; and
    the disconnect of the only registered connection while monitoring is on
    leaves the registry empty, monitoring off and the LED off. *)
Theorem empty_registry_monitoring_off :
  (∀ handle relay0 buzzer0 events,
     let g := run events (initial handle relay0 buzzer0) in
     connected_devices g = ∅ → rssi_blink_active g = false) ∧
  (∀ g conn_handle addr_type addr_bytes info,
     connected_devices g = {[conn_handle := info]} →
     rssi_blink_active g = true →
     let g' :=
       (ble_handler (IRQ_CENTRAL_DISCONNECT conn_handle addr_type addr_bytes) g).1 in
     connected_devices g' = ∅ ∧ rssi_blink_active g' = false ∧ led g' = false).
Proof.
  split.
  - intros handle relay0 buzzer0 events. cbv zeta.
    apply run_invariant. intros _. reflexivity.
  - intros g h t a info Hreg _. cbv zeta.
    rewrite (disconnect_registered g h t a info)
      by (rewrite Hreg; apply lookup_singleton_eq).
    cbn. rewrite Hreg. split; [apply delete_singleton_eq | done].
Qed.

Lemma empty_registry_monitoring_off_witness :
  rssi_blink_active
    (run [ IRQ_CENTRAL_CONNECT 1 0 "abcdef";
           IRQ_GATTS_WRITE 1 9 "start_rssi";
           IRQ_CENTRAL_DISCONNECT 1 0 "abcdef" ]
         (initial 9 false false)) = false ∧
  (connected_devices
     (ble_handler (IRQ_CENTRAL_DISCONNECT 1 0 "abcdef") sample_monitoring).1 = ∅ ∧
   rssi_blink_active
     (ble_handler (IRQ_CENTRAL_DISCONNECT 1 0 "abcdef") sample_monitoring).1
   = false ∧
   led (ble_handler (IRQ_CENTRAL_DISCONNECT 1 0 "abcdef") sample_monitoring).1
   = false).
Proof.
  split.
  - refine (proj1 empty_registry_monitoring_off 9 false false _ _).
    vm_compute. reflexivity.
  - refine (proj2 empty_registry_monitoring_off sample_monitoring 1 0 "abcdef"
              (DeviceInfo "61:62:63:64:65:66" "Phone") _ _).
    + vm_compute. reflexivity.
    + vm_compute. reflexivity.
Defined.

(** ** Commands *)

(** Decides the membership and equality tests of [interpret] on a command
    that starts with other characters. *)
Ltac refute_command H :=
  repeat match type of H with
         | _ ∈ _ :: _ => apply elem_of_cons in H as [H|H]; [discriminate H|]
         | _ ∈ [] => inversion H
         | _ = _ => discriminate H
         end.

(** [toggle] first runs [stop_rssi_monitoring], which switches the LED off,
    and toggles after that. *)
Lemma interpret_toggle g :
  interpret "toggle" g = (led_on (stop_rssi_monitoring g), "on").
Proof. reflexivity. Qed.

(** C5 (the program differs). At a lit LED the command [toggle] on a
    registered handle disables monitoring but leaves the LED on and answers
    "on": the level is not inverted. *)
Theorem toggle_on_lit_led_stays_on :
  connected_devices sample_lit !! 1 = Some (DeviceInfo "61:62:63:64:65:66" "Phone") ∧
  led sample_lit = true ∧
  led (ble_handler (IRQ_GATTS_WRITE 1 9 "toggle") sample_lit).1 = true ∧
  rssi_blink_active (ble_handler (IRQ_GATTS_WRITE 1 9 "toggle") sample_lit).1
  = false ∧
  (ble_handler (IRQ_GATTS_WRITE 1 9 "toggle") sample_lit).2 = [Notify 1 9 "on"].
Proof. repeat split; vm_compute; reflexivity. Qed.

Lemma split_cons sep s : ∃ w ws, Text.split sep s = w :: ws.
Proof.
  induction s as [|c s (w & ws & IH)]; cbn; [eauto|].
  destruct (Ascii.eqb c sep); [eauto|]. rewrite IH. eauto.
Qed.

Lemma rssi_prefix payload :
  "rssi:" +:+ payload
  = String "r" (String "s" (String "s" (String "i" (String ":" payload)))).
Proof. reflexivity. Qed.

(** [command.split(':')[1]] on a command that starts with [rssi:]. *)
Lemma split_rssi payload :
  Text.split ":" ("rssi:" +:+ payload) !! 1%nat = Some (second_field payload).
Proof.
  unfold second_field. rewrite rssi_prefix.
  destruct (split_cons ":" payload) as (w & ws & Hsplit).
  cbn. rewrite Hsplit. reflexivity.
Qed.

Lemma interpret_rssi payload g :
  interpret ("rssi:" +:+ payload) g =
    match Text.int (second_field payload) with
    | Some rssi_value =>
        (update_rssi rssi_value g, "rssi_updated:" +:+ Text.str rssi_value)
    | None => (g, "rssi_error")
    end.
Proof.
  unfold interpret. rewrite split_rssi. cbn [mbind option_bind].
  rewrite rssi_prefix.
  repeat (case_bool_decide as H; [exfalso; refute_command H | clear H]).
  reflexivity.
Qed.

Lemma occurs_lstrip c s :
  Text.isspace c = false → occurs c (Text.lstrip s) = occurs c s.
Proof.
  intros Hc. induction s as [|c' s IH]; cbn; [done|].
  destruct (Text.isspace c') eqn:Hc'; [|done].
  rewrite IH. destruct (Ascii.eqb_spec c' c) as [->|]; [congruence|done].
Qed.

(** The digit loop reads no colon. *)
Lemma digits_rest_colon s : ∀ acc,
  occurs ":" (Text.digits acc s).2 = occurs ":" s.
Proof.
  induction s as [|c s IH]; intros acc; cbn; [done|].
  destruct (Ascii.eqb_spec c ":") as [->|Hne]; [reflexivity|]. cbn.
  destruct (Text.isdigit c); [apply IH|].
  destruct (Ascii.eqb c "_"); [apply IH|].
  cbn. destruct (Ascii.eqb_spec c ":"); [done | reflexivity].
Qed.

Lemma int_body_no_colon neg body n :
  Text.int_body neg body = Some n → occurs ":" body = false.
Proof.
  unfold Text.int_body.
  pose proof (digits_rest_colon body 0) as Hrest.
  destruct (Text.digits 0 body) as [value rest]. cbn in Hrest.
  destruct (String.length rest =? String.length body)%nat; [done|].
  destruct (Text.lstrip rest) eqn:Hstrip; [|done]. intros _.
  rewrite <- Hrest, <- (occurs_lstrip ":" rest) by reflexivity.
  by rewrite Hstrip.
Qed.

(** [int] accepts no text with a colon in it. *)
Lemma int_no_colon text n : Text.int text = Some n → occurs ":" text = false.
Proof.
  unfold Text.int. intros H.
  rewrite <- (occurs_lstrip ":" text) by reflexivity.
  destruct (Text.lstrip text) as [|c s']; [done|].
  destruct (Ascii.eqb_spec c "-") as [->|_];
    [cbn; by eapply int_body_no_colon|].
  destruct (Ascii.eqb_spec c "+") as [->|_];
    [cbn; by eapply int_body_no_colon|].
  by eapply int_body_no_colon.
Qed.

Lemma split_no_sep sep s : occurs sep s = false → Text.split sep s = [s].
Proof.
  induction s as [|c s IH]; cbn; [done|].
  destruct (Ascii.eqb c sep); cbn; [done|]. intros H. by rewrite IH.
Qed.

Lemma second_field_whole payload n :
  Text.int payload = Some n → second_field payload = payload.
Proof.
  intros H. unfold second_field.
  by rewrite (split_no_sep ":" payload (int_no_colon _ _ H)).
Qed.

(** A write of a command on the characteristic, from a registered handle. *)
Lemma write_command g h info written command :
  connected_devices g !! h = Some info →
  command_text written = Some command →
  ble_handler (IRQ_GATTS_WRITE h (led_handle g) written) g
  = ((interpret command g).1,
     [Notify h (led_handle (interpret command g).1) (interpret command g).2]).
Proof.
  intros Hreg Hcmd. cbn. rewrite Hreg, Z.eqb_refl, Hcmd.
  destruct (interpret command g). reflexivity.
Qed.

(** The payload "12:abc" is no integer, yet the command stores 12: the
    handler parses the payload only up to its first colon. *)
Lemma rssi_payload_with_colon_accepted :
  connected_devices sample_connected !! 1
  = Some (DeviceInfo "61:62:63:64:65:66" "Phone") ∧
  command_text "rssi:12:abc" = Some ("rssi:" +:+ "12:abc") ∧
  Text.int "12:abc" = None ∧
  current_rssi sample_connected = -60 ∧
  current_rssi (ble_handler (IRQ_GATTS_WRITE 1 9 "rssi:12:abc") sample_connected).1
  = 12 ∧
  (ble_handler (IRQ_GATTS_WRITE 1 9 "rssi:12:abc") sample_connected).2
  = [Notify 1 9 "rssi_updated:12"].
Proof. repeat split; vm_compute; reflexivity. Qed.

(** C6 (amended). On a registered handle, a command [rssi:<payload>] is
    judged by the payload up to its first colon (the whole payload when it
    has none): when that part is no integer, nothing changes and the answer
    is "rssi_error"; when it is the integer [n], the reading becomes [n],
    nothing else changes, and the answer is "rssi_updated:<n>". A payload
    that itself is an integer [n] is such a case. *)
Theorem rssi_command_parses_second_field
    (g : globals) (h : Z) (info : device_info) (written payload : string) :
  connected_devices g !! h = Some info →
  command_text written = Some ("rssi:" +:+ payload) →
  let result := ble_handler (IRQ_GATTS_WRITE h (led_handle g) written) g in
  (Text.int (second_field payload) = None →
   result = (g, [Notify h (led_handle g) "rssi_error"])) ∧
  (∀ n, Text.int (second_field payload) = Some n →
        current_rssi result.1 = n ∧
        result = (update_rssi n g,
                  [Notify h (led_handle g) ("rssi_updated:" +:+ Text.str n)])) ∧
  (∀ n, Text.int payload = Some n →
        current_rssi result.1 = n ∧
        result = (update_rssi n g,
                  [Notify h (led_handle g) ("rssi_updated:" +:+ Text.str n)])).
Proof.
  intros Hreg Hcmd. cbv zeta.
  rewrite (write_command g h info written _ Hreg Hcmd), interpret_rssi.
  split; [|split].
  - intros ->. reflexivity.
  - intros n ->. split; reflexivity.
  - intros n Hn. rewrite (second_field_whole _ _ Hn), Hn. split; reflexivity.
Qed.

Lemma rssi_command_parses_second_field_witness :
  current_rssi
    (ble_handler (IRQ_GATTS_WRITE 1 (led_handle sample_connected) "rssi:-72")
       sample_connected).1 = -72 ∧
  ble_handler (IRQ_GATTS_WRITE 1 (led_handle sample_connected) "rssi:-72")
    sample_connected
  = (update_rssi (-72) sample_connected,
     [Notify 1 (led_handle sample_connected)
        ("rssi_updated:" +:+ Text.str (-72))]).
Proof.
  refine (proj2 (proj2
    (rssi_command_parses_second_field sample_connected 1
       (DeviceInfo "61:62:63:64:65:66" "Phone") "rssi:-72" "-72" _ _))
    (-72) _).
  - vm_compute. reflexivity.
  - vm_compute. reflexivity.
  - vm_compute. reflexivity.
Defined.

Example rssi_non_numeric :
  ble_handler (IRQ_GATTS_WRITE 1 9 "rssi:abc") sample_connected
  = (sample_connected, [Notify 1 9 "rssi_error"]).
Proof. vm_compute. reflexivity. Qed.

(** * Further properties of the program *)

(** ** The mapper, over all readings *)

(** X1. Whatever the reading, the period is one of the nine periods of the
    table, hence between 25 and 1500 ms; from -30 upwards it is 25. *)
Theorem mapper_range (r : Z) :
  rssi_to_blink_interval r ∈ map snd rssi_map ∧
  25 ≤ rssi_to_blink_interval r ≤ 1500 ∧
  (-30 ≤ r → rssi_to_blink_interval r = 25).
Proof.
  rewrite rssi_to_blink_interval_cascade. cbn [map snd rssi_map].
  repeat split_geb; (split; [set_solver | split; lia]).
Qed.

(** ** Commands *)

(** X2. The command [toggle] acts and answers exactly as [on] does: it
    leaves the LED on and answers "on" whatever the level was. *)
Theorem toggle_acts_as_on (g : globals) :
  interpret "toggle" g = interpret "on" g ∧
  led (interpret "toggle" g).1 = true ∧
  (interpret "toggle" g).2 = "on".
Proof. repeat split. Qed.

(** X3. Every command is idempotent: interpreting it a second time, on the
    globals the first time left, gives the same globals and the same
    answer. A command that was sent twice does no harm. *)
Theorem interpret_idempotent (command : string) (g : globals) :
  interpret command (interpret command g).1 = interpret command g.
Proof.
  unfold interpret.
  repeat (case_bool_decide; [reflexivity|]).
  destruct (Text.startswith command "rssi:"); [|reflexivity].
  destruct (Text.split ":" command !! 1%nat ≫= Text.int); reflexivity.
Qed.

(** ** Passes of the main loop *)

(** A pass that finds the scheduler Idle assigns nothing. *)
Lemma loop_iteration_idle now g : ¬ Active g → loop_iteration now g = g.
Proof.
  intros Hidle. unfold loop_iteration.
  destruct (rssi_blink_active g && truthy (connected_devices g)) eqn:Hact;
    [|reflexivity].
  apply Active_spec in Hact. done.
Qed.

Lemma passes_idle times g :
  ¬ Active g → execute (Pass <$> times) g = g.
Proof.
  intros Hidle. induction times as [|t times IH]; [reflexivity|].
  cbn. rewrite loop_iteration_idle by done. exact IH.
Qed.

Lemma led_command_stops command g :
  command ∈ led_commands → rssi_blink_active (interpret command g).1 = false.
Proof.
  unfold led_commands. intros Hin.
  repeat (apply elem_of_cons in Hin as [->|Hin]; [reflexivity|]).
  inversion Hin.
Qed.

(** X4. A command that sets the LED or stops monitoring wins over the
    scheduler: after "1", "on", "0", "off", "toggle" or "stop_rssi", no
    number of passes of the main loop changes any variable, so the LED
    keeps the level the command gave it. *)
Theorem led_command_wins (command : string) (g : globals) (times : list Z) :
  command ∈ led_commands →
  execute (Pass <$> times) (interpret command g).1 = (interpret command g).1.
Proof.
  intros Hin. apply passes_idle. intros [Hon _].
  rewrite (led_command_stops _ _ Hin) in Hon. discriminate.
Qed.

Lemma led_command_wins_witness :
  execute (Pass <$> [100; 700; 5000]) (interpret "off" sample_monitoring).1
  = (interpret "off" sample_monitoring).1.
Proof.
  apply (led_command_wins "off" sample_monitoring [100; 700; 5000]).
  unfold led_commands. set_solver.
Defined.

(** ** What the handler sends and sets *)

(** The write branch, by its three guards. *)
Lemma write_cases g h vh w :
  (∃ info command,
     connected_devices g !! h = Some info ∧ vh = led_handle g ∧
     command_text w = Some command ∧
     ble_handler (IRQ_GATTS_WRITE h vh w) g
     = ((interpret command g).1,
        [Notify h (led_handle g) (interpret command g).2])) ∨
  ((connected_devices g !! h = None ∨ vh ≠ led_handle g ∨ command_text w = None) ∧
   ble_handler (IRQ_GATTS_WRITE h vh w) g = (g, [])).
Proof.
  cbn. destruct (connected_devices g !! h) as [info|] eqn:Hreg; [|auto].
  destruct (Z.eqb_spec vh (led_handle g)) as [->|Hne]; [|auto].
  destruct (command_text w) as [command|] eqn:Hcmd; [|auto].
  left. exists info, command.
  pose proof (interpret_frame command g) as (_ & Hh & _).
  destruct (interpret command g) as [g' status]. cbn in *.
  rewrite Hh. auto.
Qed.

(** X5. The handler notifies nobody but the connection the event came
    from, always on the LED characteristic, and at most once per event. *)
Theorem notifications_to_sender (event : irq) (g : globals) :
  (List.length (ble_handler event g).2 ≤ 1)%nat ∧
  ∀ n, n ∈ (ble_handler event g).2 →
       to_conn n = event_conn event ∧ on_value n = led_handle g.
Proof.
  destruct event as [h t a | h t a | h vh w].
  - cbn. split; [lia|]. intros n ->%list_elem_of_singleton. done.
  - cbn. destruct (connected_devices g !! h); cbn;
      (split; [lia | intros n Hn; inversion Hn]).
  - destruct (write_cases g h vh w)
      as [(info & command & _ & _ & _ & ->) | [_ ->]]; cbn.
    + split; [lia|]. intros n ->%list_elem_of_singleton. done.
    + split; [lia | intros n Hn; inversion Hn].
Qed.

Lemma command_text_Some w : is_Some (command_text w) ↔ Text.decode w = Some w.
Proof.
  unfold command_text, Text.decode.
  destruct (Text.utf8_check 0 w); cbn; split; intros H; eauto; done.
Qed.

(** X6. A write is answered exactly when its handle is registered, it
    addresses the LED characteristic and [value.decode('utf-8')] does not
    raise, that is, the value passes the decoder's structural check (lone
    bytes below 0x80, lead bytes 0xC0..0xF7 each followed by the one, two
    or three continuation bytes 0x80..0xBF they announce); a write that is
    not answered has changed no variable. *)
Theorem write_answered_iff (g : globals) (h vh : Z) (w : string) :
  ((ble_handler (IRQ_GATTS_WRITE h vh w) g).2 ≠ [] ↔
   is_Some (connected_devices g !! h) ∧ vh = led_handle g ∧
   Text.decode w = Some w) ∧
  ((ble_handler (IRQ_GATTS_WRITE h vh w) g).2 = [] →
   (ble_handler (IRQ_GATTS_WRITE h vh w) g).1 = g).
Proof.
  destruct (write_cases g h vh w)
    as [(info & command & Hreg & Hvh & Hcmd & ->) | [Hno ->]]; cbn.
  - split; [|done]. split; [|done]. intros _.
    split; [eauto|]. split; [done|]. apply command_text_Some. eauto.
  - split; [|done]. split; [done|]. intros (Hreg & Hvh & Hutf).
    apply command_text_Some in Hutf.
    destruct Hno as [Hno | [Hno | Hno]].
    + rewrite Hno in Hreg. by destruct Hreg.
    + done.
    + rewrite Hno in Hutf. by destruct Hutf.
Qed.

(** The check passes overlong forms: the two bytes C0 80 are decoded, and
    the write is answered "unknown"; a lone continuation byte is refused,
    and the write is dropped. *)
Example write_overlong_answered :
  let overlong := String (ascii_of_N 192) (String (ascii_of_N 128) EmptyString) in
  let lone := String (ascii_of_N 128) EmptyString in
  ble_handler (IRQ_GATTS_WRITE 1 9 overlong) sample_connected
  = (sample_connected, [Notify 1 9 "unknown"]) ∧
  ble_handler (IRQ_GATTS_WRITE 1 9 lone) sample_connected
  = (sample_connected, []).
Proof. cbv zeta. split; vm_compute; reflexivity. Qed.

(** The relay after a command. *)
Lemma interpret_relay command g :
  relay_pin (interpret command g).1 =
    if bool_decide (command = "unlock") then true
    else if bool_decide (command = "lock") then false
    else relay_pin g.
Proof.
  unfold interpret.
  repeat case_bool_decide; subst; repeat case_match; try reflexivity;
    exfalso;
    repeat match goal with
           | H : _ ∈ _ |- _ => refute_command H
           | H : _ = _ |- _ => discriminate H
           end.
Qed.

Lemma loop_iteration_frame now g :
  relay_pin (loop_iteration now g) = relay_pin g ∧
  buzzer_pin (loop_iteration now g) = buzzer_pin g ∧
  ble_active (loop_iteration now g) = ble_active g ∧
  connected_devices (loop_iteration now g) = connected_devices g ∧
  rssi_blink_active (loop_iteration now g) = rssi_blink_active g ∧
  current_rssi (loop_iteration now g) = current_rssi g ∧
  led_handle (loop_iteration now g) = led_handle g.
Proof.
  unfold loop_iteration, update_rssi_blink. cbn.
  repeat case_match; cbn; done.
Qed.

(** X7. The relay changes level only through a write, from a registered
    handle to the LED characteristic, of the command "unlock" (which
    engages it) or "lock" (which releases it): no connect, disconnect,
    other command or pass of the main loop moves the lock. *)
Theorem relay_moves_only_on_lock_commands (a : action) (g : globals) :
  relay_pin (step a g) ≠ relay_pin g →
  ∃ h w,
    a = Event (IRQ_GATTS_WRITE h (led_handle g) w) ∧
    is_Some (connected_devices g !! h) ∧
    ((command_text w = Some "unlock" ∧ relay_pin (step a g) = true) ∨
     (command_text w = Some "lock" ∧ relay_pin (step a g) = false)).
Proof.
  destruct a as [[h t ad | h t ad | h vh w] | now]; cbn [step].
  - intros H. by destruct H.
  - rewrite disconnect_relay. done.
  - destruct (write_cases g h vh w)
      as [(info & command & Hreg & -> & Hcmd & ->) | [_ ->]]; [|done].
    cbn [fst]. rewrite interpret_relay. intros Hne.
    exists h, w. split; [done|]. split; [eauto|].
    repeat case_bool_decide; subst; auto. done.
  - pose proof (loop_iteration_frame now g) as [-> _]. done.
Qed.

Lemma relay_moves_only_on_lock_commands_witness :
  ∃ h w,
    Event (IRQ_GATTS_WRITE 1 9 "unlock")
    = Event (IRQ_GATTS_WRITE h (led_handle sample_connected) w) ∧
    is_Some (connected_devices sample_connected !! h) ∧
    ((command_text w = Some "unlock" ∧
      relay_pin (step (Event (IRQ_GATTS_WRITE 1 9 "unlock")) sample_connected)
      = true) ∨
     (command_text w = Some "lock" ∧
      relay_pin (step (Event (IRQ_GATTS_WRITE 1 9 "unlock")) sample_connected)
      = false)).
Proof.
  apply (relay_moves_only_on_lock_commands
           (Event (IRQ_GATTS_WRITE 1 9 "unlock")) sample_connected).
  vm_compute. discriminate.
Defined.

(** ** The registry *)

(** X8. A disconnect of a registered handle removes that entry and no
    other, and it stops monitoring and switches the LED off even when
    other connections stay registered; a disconnect of a handle that is not
    registered changes no variable. *)
Theorem disconnect_semantics (g : globals) (h t : Z) (a : string) :
  let g' := (ble_handler (IRQ_CENTRAL_DISCONNECT h t a) g).1 in
  (connected_devices g !! h = None → g' = g) ∧
  (is_Some (connected_devices g !! h) →
   rssi_blink_active g' = false ∧ led g' = false ∧
   connected_devices g' !! h = None ∧
   ∀ h', h' ≠ h → connected_devices g' !! h' = connected_devices g !! h').
Proof.
  cbv zeta. split.
  - intros Hno. cbn. rewrite Hno. reflexivity.
  - intros [info Hreg]. rewrite (disconnect_registered g h t a info Hreg). cbn.
    split; [done|]. split; [done|]. split; [apply lookup_delete_eq|].
    intros h' Hne. by apply lookup_delete_ne.
Qed.

(** Two phones connected and monitoring on: when the first leaves, the
    second is still registered but the scheduler is no longer Active. *)
Example disconnect_one_of_two :
  let g := run [ IRQ_CENTRAL_CONNECT 1 0 "abcdef";
                 IRQ_CENTRAL_CONNECT 2 0 "uvwxyz";
                 IRQ_GATTS_WRITE 2 9 "start_rssi" ] (initial 9 false false) in
  let g' := (ble_handler (IRQ_CENTRAL_DISCONNECT 1 0 "abcdef") g).1 in
  rssi_blink_active g = true ∧ rssi_blink_active g' = false ∧
  connected_devices g' !! 2 = Some (DeviceInfo "75:76:77:78:79:7a" "Phone").
Proof. cbv zeta. repeat split; vm_compute; reflexivity. Qed.

(** X9. A connect registers the handle with the address written in hex
    and the name "Phone", replacing an entry the handle had, leaves the
    other entries alone and sends "connected" to that handle; when the
    handle was free, the disconnect that follows gives the registry back as
    it was. *)
Theorem connect_registers (g : globals) (h t : Z) (a : string) :
  let r := ble_handler (IRQ_CENTRAL_CONNECT h t a) g in
  connected_devices r.1 !! h
  = Some (DeviceInfo (get_device_addr_string a) "Phone") ∧
  (∀ h', h' ≠ h → connected_devices r.1 !! h' = connected_devices g !! h') ∧
  r.2 = [Notify h (led_handle g) "connected"] ∧
  (connected_devices g !! h = None →
   connected_devices (ble_handler (IRQ_CENTRAL_DISCONNECT h t a) r.1).1
   = connected_devices g).
Proof.
  cbv zeta. split; [apply lookup_insert_eq|].
  split; [intros h' Hne; by apply lookup_insert_ne|]. split; [reflexivity|].
  intros Hfree.
  erewrite disconnect_registered by apply lookup_insert_eq.
  cbn. rewrite delete_insert_eq. by apply delete_id.
Qed.

(** ** Invariants of the running program *)

Lemma execute_ind (P : globals → Prop) actions g :
  P g → (∀ a g, P g → P (step a g)) → P (execute actions g).
Proof.
  intros Hg Hstep. revert g Hg.
  induction actions as [|a actions IH]; intros g Hg; [exact Hg|].
  cbn. apply IH. by apply Hstep.
Qed.

Lemma interpret_frame_io command g :
  buzzer_pin (interpret command g).1 = buzzer_pin g ∧
  ble_active (interpret command g).1 = ble_active g ∧
  current_blink_interval_ms (interpret command g).1
  = current_blink_interval_ms g.
Proof. unfold interpret. repeat case_match; cbn; done. Qed.

Lemma ble_handler_frame event g :
  buzzer_pin (ble_handler event g).1 = buzzer_pin g ∧
  ble_active (ble_handler event g).1 = ble_active g ∧
  led_handle (ble_handler event g).1 = led_handle g ∧
  last_blink_time_ms (ble_handler event g).1 = last_blink_time_ms g ∧
  current_blink_interval_ms (ble_handler event g).1
  = current_blink_interval_ms g.
Proof.
  destruct event as [h t a | h t a | h vh w].
  - cbn. done.
  - cbn. destruct (connected_devices g !! h); cbn; done.
  - destruct (write_cases g h vh w)
      as [(info & command & _ & _ & _ & ->) | [_ ->]]; [|done].
    pose proof (interpret_frame command g) as (_ & ? & ?).
    pose proof (interpret_frame_io command g) as (? & ? & ?). cbn. done.
Qed.

Lemma mapper_bounds r : 25 ≤ rssi_to_blink_interval r ≤ 1500.
Proof. rewrite rssi_to_blink_interval_cascade. repeat split_geb; lia. Qed.

Lemma loop_iteration_interval now g :
  25 ≤ current_blink_interval_ms g ≤ 1500 →
  25 ≤ current_blink_interval_ms (loop_iteration now g) ≤ 1500.
Proof.
  intros H. pose proof (mapper_bounds (current_rssi g)).
  unfold loop_iteration, update_rssi_blink. cbn.
  repeat case_match; cbn; done.
Qed.

(** X10. Through any interleaving of handler calls and passes of the main
    loop, from the initial globals: an empty registry implies that
    monitoring is off; the buzzer pin keeps its first level (nothing drives
    it), the radio stays active and the characteristic's handle stays the
    same; and the blink interval of the main loop stays between 25 and
    1500 ms. *)
Theorem execute_invariants
    (handle : Z) (relay0 buzzer0 : bool) (actions : list action) :
  let g := execute actions (initial handle relay0 buzzer0) in
  (connected_devices g = ∅ → rssi_blink_active g = false) ∧
  buzzer_pin g = buzzer0 ∧ ble_active g = true ∧ led_handle g = handle ∧
  25 ≤ current_blink_interval_ms g ≤ 1500.
Proof.
  cbv zeta. apply execute_ind.
  - cbn. repeat split; lia.
  - intros a g (Hinv & Hbuz & Hble & Hh & Hint). destruct a as [event|now].
    + cbn [step].
      pose proof (ble_handler_frame event g) as (-> & -> & -> & _ & ->).
      split; [by apply ble_handler_invariant | done].
    + cbn [step].
      pose proof (loop_iteration_frame now g)
        as (_ & -> & -> & -> & -> & _ & ->).
      split; [exact Hinv|]. repeat (split; [done|]).
      by apply loop_iteration_interval.
Qed.

(** X11. The command "start_rssi" from a registered handle makes the
    scheduler Active at once, answers "rssi_started" and leaves the LED as
    it is until a pass finds the blink due. *)
Theorem start_rssi_activates
    (g : globals) (h : Z) (info : device_info) (w : string) :
  connected_devices g !! h = Some info →
  command_text w = Some "start_rssi" →
  let r := ble_handler (IRQ_GATTS_WRITE h (led_handle g) w) g in
  Active r.1 ∧ led r.1 = led g ∧
  r.2 = [Notify h (led_handle g) "rssi_started"].
Proof.
  intros Hreg Hcmd. cbv zeta.
  rewrite (write_command g h info w _ Hreg Hcmd).
  change (interpret "start_rssi" g)
    with (start_rssi_monitoring g, "rssi_started"). cbn.
  split; [|done]. split; [done|].
  intros Hempty. change (connected_devices g = ∅) in Hempty.
  rewrite Hempty, lookup_empty in Hreg. discriminate.
Qed.

Lemma start_rssi_activates_witness :
  Active (ble_handler (IRQ_GATTS_WRITE 1 (led_handle sample_connected)
                         " Start_RSSI ") sample_connected).1 ∧
  led (ble_handler (IRQ_GATTS_WRITE 1 (led_handle sample_connected)
                      " Start_RSSI ") sample_connected).1
  = led sample_connected ∧
  (ble_handler (IRQ_GATTS_WRITE 1 (led_handle sample_connected)
                  " Start_RSSI ") sample_connected).2
  = [Notify 1 (led_handle sample_connected) "rssi_started"].
Proof.
  refine (start_rssi_activates sample_connected 1
            (DeviceInfo "61:62:63:64:65:66" "Phone") " Start_RSSI " _ _).
  - vm_compute. reflexivity.
  - vm_compute. reflexivity.
Defined.

(** ** The spacing of blinks *)

Lemma loop_iteration_due_eq now g :
  due now g →
  loop_iteration now g
  = set_last_blink_time_ms now
      (led_toggle
         (set_current_blink_interval_ms
            (rssi_to_blink_interval (current_rssi g)) g)).
Proof.
  intros [Hact Hel]. unfold loop_iteration.
  pose proof Hact as [Hon _]. apply Active_spec in Hact. rewrite Hact. cbn.
  destruct (Z.geb_spec (ticks_diff now (last_blink_time_ms g))
                       (rssi_to_blink_interval (current_rssi g))) as [_|Hlt];
    [|lia].
  unfold update_rssi_blink. cbn. rewrite Hon. reflexivity.
Qed.

(** X12. After a pass that toggled the LED at tick [now], a pass [d] ms
    later (the tick counter may have wrapped in between) changes no
    variable while [d] is below the period of the current reading, and
    toggles the LED back and records its own tick once [d] has reached the
    period: two toggles are never closer than the period. *)
Theorem blink_spacing (g : globals) (now d : Z) :
  due now g → 0 ≤ d < TICKS_PERIOD / 2 →
  let g1 := loop_iteration now g in
  let later := (now + d) mod TICKS_PERIOD in
  (d < rssi_to_blink_interval (current_rssi g) →
   loop_iteration later g1 = g1) ∧
  (rssi_to_blink_interval (current_rssi g) ≤ d →
   led (loop_iteration later g1) = led g ∧
   last_blink_time_ms (loop_iteration later g1) = later).
Proof.
  intros Hdue Hd. cbv zeta. rewrite (loop_iteration_due_eq now g Hdue).
  destruct Hdue as [Hact _]. pose proof Hact as [Hon _].
  apply Active_spec in Hact.
  unfold loop_iteration. cbn. rewrite Hact. cbn.
  rewrite (ticks_diff_later now d Hd).
  destruct (Z.geb_spec d (rssi_to_blink_interval (current_rssi g)))
    as [Hge|Hlt].
  - split; [lia|]. intros _. unfold update_rssi_blink. cbn. rewrite Hon. cbn.
    split; [apply negb_involutive | reflexivity].
  - split; [reflexivity | lia].
Qed.

Lemma blink_spacing_witness :
  (299 < rssi_to_blink_interval (current_rssi sample_late) →
   loop_iteration ((1073741800 + 299) mod TICKS_PERIOD)
     (loop_iteration 1073741800 sample_late)
   = loop_iteration 1073741800 sample_late) ∧
  (rssi_to_blink_interval (current_rssi sample_late) ≤ 299 →
   led (loop_iteration ((1073741800 + 299) mod TICKS_PERIOD)
          (loop_iteration 1073741800 sample_late))
   = led sample_late ∧
   last_blink_time_ms
     (loop_iteration ((1073741800 + 299) mod TICKS_PERIOD)
        (loop_iteration 1073741800 sample_late))
   = (1073741800 + 299) mod TICKS_PERIOD).
Proof.
  refine (blink_spacing sample_late 1073741800 299 _ _).
  - split; [split|].
    + vm_compute. reflexivity.
    + apply truthy_spec. vm_compute. reflexivity.
    + apply Z.leb_le. vm_compute. reflexivity.
  - split; [lia|]. apply Z.ltb_lt. vm_compute. reflexivity.
Defined.

(** X13. While the scheduler is Active, a reading [n] written as
    "rssi:<n>" leaves it Active and the LED untouched, and the next pass of
    the main loop runs with the period of [n]. *)
Theorem reading_sets_period
    (g : globals) (h : Z) (info : device_info) (w payload : string)
    (n now : Z) :
  connected_devices g !! h = Some info →
  command_text w = Some ("rssi:" +:+ payload) →
  Text.int payload = Some n →
  Active g →
  let g1 := (ble_handler (IRQ_GATTS_WRITE h (led_handle g) w) g).1 in
  Active g1 ∧ led g1 = led g ∧
  current_blink_interval_ms (loop_iteration now g1)
  = rssi_to_blink_interval n.
Proof.
  intros Hreg Hcmd Hint Hact. cbv zeta.
  rewrite (write_command g h info w _ Hreg Hcmd), interpret_rssi.
  rewrite (second_field_whole _ _ Hint), Hint. cbn [fst].
  assert (Active (update_rssi n g)) as Hact' by exact Hact.
  split; [exact Hact'|]. split; [reflexivity|].
  unfold loop_iteration. apply Active_spec in Hact'. rewrite Hact'.
  cbn. unfold update_rssi_blink. repeat case_match; reflexivity.
Qed.

Lemma reading_sets_period_witness :
  Active (ble_handler (IRQ_GATTS_WRITE 1 (led_handle sample_monitoring)
                         "rssi:-45") sample_monitoring).1 ∧
  led (ble_handler (IRQ_GATTS_WRITE 1 (led_handle sample_monitoring)
                      "rssi:-45") sample_monitoring).1
  = led sample_monitoring ∧
  current_blink_interval_ms
    (loop_iteration 20
       (ble_handler (IRQ_GATTS_WRITE 1 (led_handle sample_monitoring)
                       "rssi:-45") sample_monitoring).1)
  = rssi_to_blink_interval (-45).
Proof.
  refine (reading_sets_period sample_monitoring 1
            (DeviceInfo "61:62:63:64:65:66" "Phone") "rssi:-45" "-45"
            (-45) 20 _ _ _ _).
  - vm_compute. reflexivity.
  - vm_compute. reflexivity.
  - vm_compute. reflexivity.
  - split; [vm_compute; reflexivity|].
    apply truthy_spec. vm_compute. reflexivity.
Defined.

(** ** Addresses *)

Lemma unhex02_hex02 b : unhex02 (Text.hex02 b) = b.
Proof. destruct b as [[] [] [] [] [] [] [] []]; vm_compute; reflexivity. Qed.

Lemma hex02_app b s :
  Text.hex02 b +:+ s
  = String (Text.hexdigit (Text.code b / 16))
      (String (Text.hexdigit (Text.code b mod 16)) s).
Proof. reflexivity. Qed.

Lemma colon_app s : ":" +:+ s = String ":" s.
Proof. reflexivity. Qed.

Lemma join_cons2 sep w w' ws :
  Text.join sep (w :: w' :: ws) = w +:+ sep +:+ Text.join sep (w' :: ws).
Proof. reflexivity. Qed.

Lemma join_hex_length l :
  String.length (Text.join ":" (map Text.hex02 l)) = (3 * List.length l - 1)%nat.
Proof.
  induction l as [|b [|c l] IH]; [reflexivity..|].
  cbn [map]. rewrite join_cons2, hex02_app. cbn [map] in IH.
  cbn [String.length List.length] in *.
  rewrite colon_app. cbn [String.length]. rewrite IH. lia.
Qed.

Lemma join_hex_inj l1 : ∀ l2,
  Text.join ":" (map Text.hex02 l1) = Text.join ":" (map Text.hex02 l2) →
  l1 = l2.
Proof.
  induction l1 as [|b [|c l1] IH]; intros [|b' [|c' l2]] H;
    try (apply (f_equal String.length) in H; rewrite !join_hex_length in H;
         cbn [List.length] in H; lia).
  - reflexivity.
  - cbn in H. apply (f_equal unhex02) in H.
    rewrite !unhex02_hex02 in H. by subst.
  - cbn [map] in H. rewrite !join_cons2, !hex02_app, !colon_app in H.
    injection H as H1 H2 H.
    assert (Text.hex02 b = Text.hex02 b') as Hb.
    { unfold Text.hex02. by rewrite H1, H2. }
    apply (f_equal unhex02) in Hb. rewrite !unhex02_hex02 in Hb. subst b'.
    f_equal. apply IH. exact H.
Qed.

Lemma list_ascii_length s :
  List.length (list_ascii_of_string s) = String.length s.
Proof. induction s as [|c s IH]; cbn; [done | by rewrite IH]. Qed.

(** X14. The address string has a length of three characters per address
    byte less one (two hex digits each, colons between; empty for no
    bytes), and two different addresses never get the same string. *)
Theorem addr_string_faithful (a a' : string) :
  String.length (get_device_addr_string a) = (3 * String.length a - 1)%nat ∧
  (get_device_addr_string a = get_device_addr_string a' → a = a').
Proof.
  unfold get_device_addr_string. split.
  - rewrite join_hex_length. by rewrite list_ascii_length.
  - intros H. apply join_hex_inj in H.
    rewrite <- (string_of_list_ascii_of_string a),
            <- (string_of_list_ascii_of_string a'). by rewrite H.
Qed.

(** ** Advertising data *)

Lemma code_ascii n : 0 ≤ n < 256 → Text.code (ascii_of_N (Z.to_N n)) = n.
Proof.
  intros Hn. unfold Text.code. rewrite N_ascii_embedding by lia. lia.
Qed.

Lemma append_cons c s t : String c s +:+ t = String c (s +:+ t).
Proof. reflexivity. Qed.

Lemma append_nil t : "" +:+ t = t.
Proof. reflexivity. Qed.

Lemma append_length s t :
  String.length (s +:+ t) = (String.length s + String.length t)%nat.
Proof.
  induction s as [|c s IH]; [by rewrite append_nil|].
  rewrite append_cons. cbn. by rewrite IH.
Qed.

Lemma append_empty s : s +:+ "" = s.
Proof.
  induction s as [|c s IH]; [done|]. rewrite append_cons. by rewrite IH.
Qed.

Lemma substring_whole t : String.substring 0 (String.length t) t = t.
Proof. induction t as [|c t IH]; cbn; [done | by rewrite IH]. Qed.

Lemma substring_prefix s t :
  String.substring 0 (String.length s) (s +:+ t) = s.
Proof.
  induction s as [|c s IH]; [rewrite append_nil; by destruct t|].
  rewrite append_cons. cbn. by rewrite IH.
Qed.

Lemma substring_suffix s t :
  String.substring (String.length s) (String.length t) (s +:+ t) = t.
Proof.
  induction s as [|c s IH]; [rewrite append_nil; apply substring_whole|].
  rewrite append_cons. cbn. exact IH.
Qed.

(** One structure read back: a length byte that counts the type byte and
    the data lets the reader continue right after the data. *)
Lemma parse_ad_structure fuel l t d rest :
  Text.code l = len d + 1 →
  parse_ad (S fuel) (String l (String t (d +:+ rest)))
  = cons (Text.code t, d) <$> parse_ad fuel rest.
Proof.
  unfold len. intros Hl. cbn [parse_ad]. rewrite Hl.
  replace (Z.to_nat (Z.of_nat (String.length d) + 1 - 1))
    with (String.length d) by lia.
  rewrite append_length.
  replace (String.length d + String.length rest - String.length d)%nat
    with (String.length rest) by lia.
  rewrite substring_prefix, substring_suffix.
  destruct (Z.eqb_spec (Z.of_nat (String.length d) + 1) 0) as [|_]; [lia|].
  destruct (Nat.ltb_spec (String.length d + String.length rest)
                         (String.length d)) as [|_]; [lia|].
  reflexivity.
Qed.

Lemma bytes_of_pair n t :
  0 ≤ n < 256 → 0 ≤ t < 256 →
  bytes_of [n; t]
  = Some (String (ascii_of_N (Z.to_N n))
            (String (ascii_of_N (Z.to_N t)) EmptyString)).
Proof.
  intros Hn Ht. cbn.
  destruct (Z.leb_spec 0 n), (Z.ltb_spec n 256); try lia.
  destruct (Z.leb_spec 0 t), (Z.ltb_spec t 256); try lia.
  reflexivity.
Qed.

Lemma bytes_of_large n t : 255 < n → bytes_of [n; t] = None.
Proof.
  intros Hn. cbn. destruct (Z.ltb_spec n 256); [lia|].
  by rewrite andb_false_r.
Qed.

(** X15. For a name and a service UUID of at most 254 bytes each, the
    advertising data is the three structures flags (type 1, value 6), name
    (type 9) and service (type 7), each length byte counting its type byte
    and data, 7 bytes longer than name and UUID together; a longer name or
    UUID makes [bytes] fail and no data is built. *)
Theorem adv_data_framing (name service_bytes : string) :
  (len name ≤ 254 → len service_bytes ≤ 254 →
   ∃ data,
     adv_data name service_bytes = Some data ∧
     len data = 7 + len name + len service_bytes ∧
     parse_ad 3 data
     = Some [ (1, String (ascii_of_N 6) EmptyString);
              (9, name); (7, service_bytes) ]) ∧
  (254 < len name ∨ 254 < len service_bytes →
   adv_data name service_bytes = None).
Proof.
  unfold adv_data. split.
  - intros Hname Hsvc.
    assert (0 ≤ len name ∧ 0 ≤ len service_bytes) as [? ?]
      by (unfold len; lia).
    rewrite !bytes_of_pair by lia. cbn [mbind option_bind bytes_of].
    eexists. split; [reflexivity|]. split.
    + unfold len in *. rewrite !append_length. cbn [String.length]. lia.
    + change (parse_ad 3
                (String (ascii_of_N 2) (String (ascii_of_N 1)
                   (String (ascii_of_N 6) EmptyString +:+
                    String (ascii_of_N (Z.to_N (len name + 1)))
                      (String (ascii_of_N 9)
                         (name +:+
                          String (ascii_of_N (Z.to_N (len service_bytes + 1)))
                            (String (ascii_of_N 7) service_bytes))))))
              = Some [ (1, String (ascii_of_N 6) EmptyString);
                       (9, name); (7, service_bytes) ]).
      rewrite parse_ad_structure by reflexivity.
      rewrite parse_ad_structure by (apply code_ascii; lia).
      rewrite <- (append_empty service_bytes) at 2.
      rewrite parse_ad_structure by (apply code_ascii; lia).
      reflexivity.
  - intros [Hname | Hsvc].
    + rewrite (bytes_of_large (len name + 1)) by lia. reflexivity.
    + rewrite (bytes_of_large (len service_bytes + 1)) by lia.
      destruct (bytes_of [len name + 1; 9]); reflexivity.
Qed.

Lemma adv_data_framing_witness :
  ∃ data,
    adv_data "Gate" "0123456789abcdef" = Some data ∧
    len data = 7 + len "Gate" + len "0123456789abcdef" ∧
    parse_ad 3 data
    = Some [ (1, String (ascii_of_N 6) EmptyString);
             (9, "Gate"); (7, "0123456789abcdef") ].
Proof.
  apply (proj1 (adv_data_framing "Gate" "0123456789abcdef")).
  - vm_compute. discriminate.
  - vm_compute. discriminate.
Defined.

(** ** Error answers *)

(** X16. An answer "unknown" or "rssi_error" means that the command
    changed no variable. *)
Theorem error_answer_no_change (command : string) (g : globals) :
  (interpret command g).2 ∈ ["unknown"; "rssi_error"] →
  (interpret command g).1 = g.
Proof.
  unfold interpret.
  repeat (case_bool_decide;
          [cbn [snd]; intros Hin;
           repeat (apply elem_of_cons in Hin as [Hin|Hin]; [discriminate Hin|]);
           inversion Hin|]).
  destruct (Text.startswith command "rssi:"); [|reflexivity].
  destruct (Text.split ":" command !! 1%nat ≫= Text.int) as [n|];
    [|reflexivity].
  cbn [snd]. intros Hin.
  repeat (apply elem_of_cons in Hin as [Hin|Hin];
          [repeat rewrite append_cons in Hin; discriminate Hin|]).
  inversion Hin.
Qed.

Lemma error_answer_no_change_witness :
  (interpret "dance" sample_monitoring).1 = sample_monitoring.
Proof.
  apply (error_answer_no_change "dance" sample_monitoring).
  vm_compute. left.
Defined.
